(** * AI Builder Backend: the chat heuristic and the plan builder of [main.py]

    A shallow embedding of the two request handlers of [src/main.py],
    [chat_endpoint] and [plan_endpoint], and the properties of them that the
    specification states.

    - A Python [str] is a sequence of Unicode code points: [list N].
    - [str.strip()] is written out with CPython's whitespace table.
    - [str.lower()] depends on the Unicode case tables of the Python runtime;
      it is a parameter [lower] of the development.  Only one statement needs
      to know anything about it (that it lower-cases ASCII text).
    - A handler either returns its response model or raises [HTTPException].
    - The document store is an external collaborator: [plan_endpoint] is a
      program that may issue [create_document] calls, interpreted against an
      arbitrary gateway. *)

From Stdlib Require Import List NArith Bool String Ascii DecimalString Lia.
Import ListNotations.

Set Implicit Arguments.

Local Open Scope N_scope.

(** ** Python strings *)

Module PyStr.

(** A [str] value: its code points, in order. *)
Definition str : Type := list N.

(** A source literal (all literals of the two handlers are ASCII). *)
Definition lit (s : string) : str :=
  map N_of_ascii (list_ascii_of_string s).

Arguments lit s%_string.

(** [len(s)] *)
Definition len (s : str) : N := N.of_nat (List.length s).

(** Truth value of a string: [bool(s)], false exactly for the empty one. *)
Definition truthy (s : str) : bool :=
  match s with
  | [] => false
  | _ :: _ => true
  end.

(** [a == b] on strings. *)
Fixpoint eqb (a b : str) : bool :=
  match a, b with
  | [], [] => true
  | x :: a', y :: b' => N.eqb x y && eqb a' b'
  | _, _ => false
  end.

(** [s.startswith(p)] *)
Fixpoint startswith (p s : str) : bool :=
  match p, s with
  | [], _ => true
  | _ :: _, [] => false
  | x :: p', y :: s' => N.eqb x y && startswith p' s'
  end.

(** [sub in s]: [sub] occurs in [s] as a contiguous run. *)
Fixpoint contains (sub s : str) : bool :=
  startswith sub s ||
  match s with
  | [] => false
  | _ :: s' => contains sub s'
  end.

(** The characters [str.strip()] removes: [Py_UNICODE_ISSPACE], that is
    U+0009..U+000D, U+001C..U+0020, U+0085, U+00A0, U+1680,
    U+2000..U+200A, U+2028, U+2029, U+202F, U+205F and U+3000. *)
Definition isspace (c : N) : bool :=
  ((9 <=? c) && (c <=? 13)) ||
  ((28 <=? c) && (c <=? 32)) ||
  (c =? 133) || (c =? 160) || (c =? 5760) ||
  ((8192 <=? c) && (c <=? 8202)) ||
  (c =? 8232) || (c =? 8233) || (c =? 8239) || (c =? 8287) ||
  (c =? 12288).

Fixpoint lstrip (s : str) : str :=
  match s with
  | [] => []
  | c :: s' => if isspace c then lstrip s' else s
  end.

Definition rstrip (s : str) : str := rev (lstrip (rev s)).

(** [s.strip()] *)
Definition strip (s : str) : str := rstrip (lstrip s).

(** [s or d] on strings. *)
Definition or_else (s d : str) : str := if truthy s then s else d.

(** ASCII lower-casing of one code point: what [str.lower()] does to a
    code point below 128. *)
Definition ascii_lower_char (c : N) : N :=
  if (65 <=? c) && (c <=? 90) then c + 32 else c.

Definition ascii_lower (s : str) : str := map ascii_lower_char s.

Definition is_ascii (s : str) : Prop := Forall (fun c => c < 128) s.

End PyStr.

Import PyStr.

(** ** Data model *)

(** Modelled from the spec: the models of [schemas.py] ([ChatMessage],
    [ChatRequest], [ChatResponse], [PlanRequest], [PlanResponse] and
    [Generation]) are imported by [main.py] and not defined in it; their
    fields are those of section 3 of the specification and those the
    handlers read and write. *)

(** Modelled from the spec: [ChatMessage], [{role, content}].  The role is
    kept as the string the handler compares with ["user"]. *)
Record ChatMessage : Type := mkChatMessage
  { role : str;
    content : str }.

(** Modelled from the spec: [ChatRequest], [{message, history (optional)}]. *)
Record ChatRequest : Type := mkChatRequest
  { message : str;
    history : option (list ChatMessage) }.

(** Modelled from the spec: [ChatResponse], [{reply}]. *)
Record ChatResponse : Type := mkChatResponse
  { reply : str }.

(** Modelled from the spec: [PlanRequest], [{idea, features (optional)}]. *)
Record PlanRequest : Type := mkPlanRequest
  { idea : str;
    features : option (list str) }.

(** The nested dictionaries of the [plan] literal of [plan_endpoint]. *)
Record Endpoint : Type := mkEndpoint
  { route : str;
    method : str;
    desc : str }.

Record Frontend : Type := mkFrontend
  { fe_stack : list str;
    pages : list str;
    components : list str;
    api_usage : list str }.

Record Backend : Type := mkBackend
  { be_stack : list str;
    endpoints : list Endpoint;
    collections : list str }.

(** The [plan] dictionary literal of [plan_endpoint]. *)
Record Plan : Type := mkPlan
  { summary : str;
    frontend : Frontend;
    backend : Backend;
    plan_features : list str;
    next_steps : list str }.

(** Modelled from the spec: [PlanResponse], [{id, status, plan}]. *)
Record PlanResponse : Type := mkPlanResponse
  { resp_id : str;
    resp_status : str;
    resp_plan : Plan }.

(** Modelled from the spec: the [Generation] record,
    [{idea, features, status, plan}]. *)
Record Generation : Type := mkGeneration
  { gen_idea : str;
    gen_features : list str;
    gen_status : str;
    gen_plan : Plan }.

(** What a handler does: return its response, or
    [raise HTTPException(status_code, detail)]. *)
Inductive handled (A : Type) : Type :=
| Returned (a : A)
| HTTPException (status_code : N) (detail : str).

Arguments Returned {A} a.
Arguments HTTPException {A} status_code detail.

(** ** The chat heuristic: [chat_endpoint] *)

Definition greeting_words : list str := [lit "hello"; lit "hi"; lit "hey"].
Definition build_words : list str :=
  [lit "website"; lit "app"; lit "build"; lit "create"].
Definition pricing_words : list str := [lit "pricing"; lit "cost"; lit "price"].

Definition greeting_reply : str :=
  lit "Hey! I'm your AI builder. Tell me what you want to create.".
Definition build_reply : str :=
  lit "Great! Share your idea, target audience, and key features. "
  ++ lit "I can draft a plan and spin up a starter in minutes.".
Definition pricing_reply : str :=
  lit "This demo is free. In production, cost depends on features and integrations.".
Definition default_reply : str :=
  lit "Got it. I can help you plan features, pages, and backend endpoints. "
  ++ lit "Use the planner below to generate a build plan.".

(** [any(k in lower for k in words)] *)
Definition any_in (words : list str) (lower_msg : str) : bool :=
  existsb (fun k => contains k lower_msg) words.

(** The [if / elif / elif / else] chain on the lower-cased message. *)
Definition intent_reply (lower_msg : str) : str :=
  if any_in greeting_words lower_msg then greeting_reply
  else if any_in build_words lower_msg then build_reply
  else if any_in pricing_words lower_msg then pricing_reply
  else default_reply.

(** [next((m.content for m in reversed(history) if m.role == "user"), None)] *)
Definition last_user (h : list ChatMessage) : option str :=
  hd_error (map content (filter (fun m => eqb (role m) (lit "user")) (rev h))).

(** [f" Also noted: '{last_user}'."] *)
Definition note (c : str) : str := lit " Also noted: '" ++ c ++ lit "'.".

(** The history block of [chat_endpoint]: [reply] with the note appended, or
    [reply] as it is.  [history] is [None], or a list. *)
Definition echo_hint (user_msg : str) (h : option (list ChatMessage))
    (reply0 : str) : str :=
  match h with
  | None => reply0
  | Some hist =>
      if negb (N.of_nat (List.length hist) =? 0)
         && (0 <? N.of_nat (List.length hist))
      then
        match last_user hist with
        | None => reply0
        | Some c =>
            if truthy c && negb (eqb c user_msg) && (len c <? 120)
            then reply0 ++ note c
            else reply0
        end
      else reply0
  end.

Section Chat.

(** [str.lower()] of the Python runtime. *)
Variable lower : str -> str.

Definition chat_endpoint (req : ChatRequest) : handled ChatResponse :=
  let user_msg := strip (or_else (message req) (lit "")) in
  if negb (truthy user_msg) then
    HTTPException 400 (lit "Message cannot be empty")
  else
    let reply0 := intent_reply (lower user_msg) in
    Returned (mkChatResponse (echo_hint user_msg (history req) reply0)).

End Chat.

(** ** The plan builder: [plan_endpoint] *)

(** The fixed parts of the [plan] literal. *)
Definition plan_frontend : Frontend :=
  {| fe_stack := [lit "Vite + React"; lit "TailwindCSS"; lit "Lucide Icons";
                  lit "Framer Motion"];
     pages := [lit "Home/Hero with 3D Spline"; lit "Features"; lit "Chatbot";
               lit "Dashboard (optional)"];
     components := [lit "Navbar"; lit "Hero"; lit "Chatbot"; lit "Planner";
                    lit "Footer"];
     api_usage := [lit "POST /api/chat"; lit "POST /api/plan"] |}.

Definition plan_backend : Backend :=
  {| be_stack := [lit "FastAPI"; lit "MongoDB"];
     endpoints :=
       [ {| route := lit "/api/chat"; method := lit "POST";
            desc := lit "Conversational helper" |};
         {| route := lit "/api/plan"; method := lit "POST";
            desc := lit "Generate build plan and store" |} ];
     collections := [lit "generation"] |}.

Definition plan_next_steps : list str :=
  [lit "Review and tweak the plan";
   lit "Auto-generate starter components";
   lit "Iterate with the chatbot for refinements"].

(** [plan = { "summary": f"Plan to build: {idea}", ..., "features": features, ... }] *)
Definition draft_plan (idea_ : str) (features_ : list str) : Plan :=
  {| summary := lit "Plan to build: " ++ idea_;
     frontend := plan_frontend;
     backend := plan_backend;
     plan_features := features_;
     next_steps := plan_next_steps |}.

(** [req.features or []] *)
Definition features_or_empty (f : option (list str)) : list str :=
  match f with
  | None => []
  | Some [] => []
  | Some (x :: l) => x :: l
  end.

Section PlanBuilder.

(** What [create_document] of [database.py] returns, the exceptions
    (instances of [Exception]) it or the [Generation] constructor may
    raise, and [str(.)] of an identifier.  The gateway is not part of
    [main.py]; nothing is assumed about it. *)
Variable DocId : Type.
Variable Exc : Type.
Variable str_of_id : DocId -> str.

(** How one call of the gateway ends. *)
Inductive outcome : Type :=
| Inserted (i : DocId)
| Raised (e : Exc).

(** A handler that talks to the document store: it returns, or it calls
    [create_document(collection, doc)] and goes on with the outcome. *)
Inductive Prog (A : Type) : Type :=
| Ret (a : A)
| CreateDocument (collection : str) (doc : Generation)
                 (k : outcome -> Prog A).

(** The value bound to [inserted_id] after the [try] block: the identifier
    the store returned, or the string of the [except] branch. *)
Definition inserted_id_of (o : outcome) : DocId + str :=
  match o with
  | Inserted i => inl i
  | Raised _ => inr (lit "no-db")
  end.

(** [str(inserted_id)] *)
Definition py_str (v : DocId + str) : str :=
  match v with
  | inl i => str_of_id i
  | inr s => s
  end.

Definition plan_endpoint (req : PlanRequest) : Prog (handled PlanResponse) :=
  let idea_ := strip (or_else (idea req) (lit "")) in
  if negb (truthy idea_) then
    Ret (HTTPException 400 (lit "Idea is required"))
  else
    let features_ := features_or_empty (features req) in
    let plan := draft_plan idea_ features_ in
    let gen := {| gen_idea := idea_; gen_features := features_;
                  gen_status := lit "planned"; gen_plan := plan |} in
    CreateDocument (lit "generation") gen (fun o =>
      let inserted_id := inserted_id_of o in
      Ret (Returned {| resp_id := py_str inserted_id;
                       resp_status := lit "planned";
                       resp_plan := plan |})).

(** *** Running a handler against a document store *)

(** State of the store. *)
Variable Store : Type.

(** A gateway: what [create_document] does in a given state of the store. *)
Definition gateway : Type := str -> Generation -> Store -> outcome * Store.

(** The result of a run: what the handler produced, the store afterwards,
    and the [create_document] calls made, in order. *)
Record run_result (A : Type) : Type := mkRun
  { produced : A;
    store_after : Store;
    calls : list (str * Generation) }.

Fixpoint run (A : Type) (db : gateway) (p : Prog A) (st : Store)
    : run_result A :=
  match p with
  | Ret a => {| produced := a; store_after := st; calls := [] |}
  | CreateDocument c d k =>
      let '(o, st') := db c d st in
      let r := run db (k o) st' in
      {| produced := produced r;
         store_after := store_after r;
         calls := (c, d) :: calls r |}
  end.

End PlanBuilder.

Arguments Ret {DocId Exc A} a.
Arguments CreateDocument {DocId Exc A} collection doc k.
Arguments Inserted {DocId Exc} i.
Arguments Raised {DocId Exc} e.

(** *** Two concrete stores, to run the handlers on *)

(** A store that is down: every call raises. *)
Definition down_store (Store : Type) : gateway N str Store :=
  fun _ _ st => (Raised (lit "connection refused"), st).

(** A store in memory: it keeps the documents and numbers them. *)
Definition memory_store : gateway N str (list Generation) :=
  fun _ d st => (Inserted (N.of_nat (List.length st)), st ++ [d]).

(** [str(n)] of a numeric identifier: its decimal digits. *)
Definition decimal_str (n : N) : str :=
  lit (NilZero.string_of_uint (N.to_uint n)).

(** ** The diagnostic endpoint: [test_database] *)

(** The emoji of the status texts: U+2705, U+274C, and U+26A0 U+FE0F. *)
Definition check_mark : str := [9989].
Definition cross_mark : str := [10060].
Definition warning_sign : str := [9888; 65039].

(** The [response] dictionary of [test_database]. *)
Record Diagnostics : Type := mkDiagnostics
  { diag_backend : str;
    diag_database : str;
    diag_database_url : option str;
    diag_database_name : option str;
    diag_connection_status : str;
    diag_collections : list str }.

(** [response[key] = v], key by key. *)
Definition set_database (r : Diagnostics) (v : str) : Diagnostics :=
  {| diag_backend := diag_backend r;
     diag_database := v;
     diag_database_url := diag_database_url r;
     diag_database_name := diag_database_name r;
     diag_connection_status := diag_connection_status r;
     diag_collections := diag_collections r |}.

Definition set_database_url (r : Diagnostics) (v : option str) : Diagnostics :=
  {| diag_backend := diag_backend r;
     diag_database := diag_database r;
     diag_database_url := v;
     diag_database_name := diag_database_name r;
     diag_connection_status := diag_connection_status r;
     diag_collections := diag_collections r |}.

Definition set_database_name (r : Diagnostics) (v : option str) : Diagnostics :=
  {| diag_backend := diag_backend r;
     diag_database := diag_database r;
     diag_database_url := diag_database_url r;
     diag_database_name := v;
     diag_connection_status := diag_connection_status r;
     diag_collections := diag_collections r |}.

Definition set_connection_status (r : Diagnostics) (v : str) : Diagnostics :=
  {| diag_backend := diag_backend r;
     diag_database := diag_database r;
     diag_database_url := diag_database_url r;
     diag_database_name := diag_database_name r;
     diag_connection_status := v;
     diag_collections := diag_collections r |}.

Definition set_collections (r : Diagnostics) (v : list str) : Diagnostics :=
  {| diag_backend := diag_backend r;
     diag_database := diag_database r;
     diag_database_url := diag_database_url r;
     diag_database_name := diag_database_name r;
     diag_connection_status := diag_connection_status r;
     diag_collections := v |}.

(** The dictionary literal [response] starts from. *)
Definition initial_diagnostics : Diagnostics :=
  {| diag_backend := check_mark ++ lit " Running";
     diag_database := cross_mark ++ lit " Not Available";
     diag_database_url := None;
     diag_database_name := None;
     diag_connection_status := lit "Not Connected";
     diag_collections := [] |}.

(** Truth value of [os.getenv(name)]: set, and not to the empty string. *)
Definition env_truthy (v : option str) : bool :=
  match v with
  | None => false
  | Some s => truthy s
  end.

(** ["✅ Set" if os.getenv(name) else "❌ Not Set"] *)
Definition set_or_not (v : option str) : str :=
  if env_truthy v then check_mark ++ lit " Set"
  else cross_mark ++ lit " Not Set".

Section Diagnostic.

(** Instances of [Exception], and [str(e)]. *)
Variable Exc : Type.
Variable str_of_exc : Exc -> str.

(** What [hasattr(db, 'name')] and [db.name] find: no such attribute, a
    name, or an exception other than [AttributeError]. *)
Inductive name_attr : Type :=
| NoName
| Name (v : str)
| NameRaises (e : Exc).

(** What [test_database] observes of a [db] object of [database.py], which
    is not part of [main.py]: its [name] attribute and how
    [db.list_collection_names()] ends. *)
Record Db : Type := mkDb
  { db_name : name_attr;
    list_collection_names : Exc + list str }.

(** The body of the inner [try], after [connection_status] is set. *)
Definition list_collections (d : Db) (response : Diagnostics) : Diagnostics :=
  match list_collection_names d with
  | inr collections_ =>
      let response := set_collections response (firstn 10 collections_) in
      set_database response (check_mark ++ lit " Connected & Working")
  | inl e =>
      set_database response
        (warning_sign ++ lit "  Connected but Error: "
         ++ firstn 50 (str_of_exc e))
  end.

(** The outer [try] block. *)
Definition probe (db : option Db) (response : Diagnostics) : Diagnostics :=
  match db with
  | Some d =>
      let response := set_database response (check_mark ++ lit " Available") in
      let response :=
        set_database_url response (Some (check_mark ++ lit " Configured")) in
      match db_name d with
      | NameRaises e =>
          set_database response
            (cross_mark ++ lit " Error: " ++ firstn 50 (str_of_exc e))
      | Name v =>
          let response := set_database_name response (Some v) in
          let response := set_connection_status response (lit "Connected") in
          list_collections d response
      | NoName =>
          let response :=
            set_database_name response (Some (check_mark ++ lit " Connected")) in
          let response := set_connection_status response (lit "Connected") in
          list_collections d response
      end
  | None =>
      set_database response
        (warning_sign ++ lit "  Available but not initialized")
  end.

(** [test_database()], given the module's [db] and the environment. *)
Definition test_database (db : option Db) (getenv : str -> option str)
    : Diagnostics :=
  let response := probe db initial_diagnostics in
  let response :=
    set_database_url response
      (Some (set_or_not (getenv (lit "DATABASE_URL")))) in
  let response :=
    set_database_name response
      (Some (set_or_not (getenv (lit "DATABASE_NAME")))) in
  response.

End Diagnostic.

Arguments NoName {Exc}.
Arguments Name {Exc} v.
Arguments NameRaises {Exc} e.

(** ** Vocabulary of the statements *)

(** [sub in s] holds exactly when [s] is [a ++ sub ++ b]. *)
Definition occurs_in (sub s : str) : Prop := exists a b, s = a ++ sub ++ b.

(** A string made of whitespace only (the empty string included). *)
Definition blank (s : str) : Prop := Forall (fun c => isspace c = true) s.

(** [c] is the content of the most recent entry of [hist] whose role is
    ["user"]: every later entry has another role. *)
Definition most_recent_user (hist : list ChatMessage) (c : str) : Prop :=
  exists before m after,
    hist = before ++ m :: after /\
    role m = lit "user" /\ content m = c /\
    Forall (fun x => role x <> lit "user") after.

(** The condition under which the note is appended, as a proposition. *)
Definition noted (m c : str) : Prop :=
  c <> [] /\ c <> m /\ (List.length c < 120)%nat.

(** The keyword set the lower-cased message [l] hits. *)
Definition mentions (words : list str) (l : str) : Prop :=
  exists k, In k words /\ occurs_in k l.

(** The endpoint answers with base reply [b]: the reply is [b], alone or
    followed by a history note. *)
Definition answers_with (r : handled ChatResponse) (b : str) : Prop :=
  exists resp, r = Returned resp /\
    (reply resp = b \/ exists c, reply resp = b ++ note c).

(** A history entry written by the user. *)
Definition user_says (c : str) : ChatMessage :=
  {| role := lit "user"; content := c |}.

(** The plan and the record [plan_endpoint] builds for a request. *)
Definition plan_of (req : PlanRequest) : Plan :=
  draft_plan (strip (idea req)) (features_or_empty (features req)).

Definition generation_of (req : PlanRequest) : Generation :=
  {| gen_idea := strip (idea req);
     gen_features := features_or_empty (features req);
     gen_status := lit "planned";
     gen_plan := plan_of req |}.

(** The response for a request, given how the store call ended. *)
Definition response_of (DocId Exc : Type) (str_of_id : DocId -> str)
    (req : PlanRequest) (o : outcome DocId Exc) : PlanResponse :=
  {| resp_id := match o with
                | Inserted i => str_of_id i
                | Raised _ => lit "no-db"
                end;
     resp_status := lit "planned";
     resp_plan := plan_of req |}.

(** A request whose idea has surrounding whitespace. *)
Definition todo_request : PlanRequest :=
  {| idea := lit " todo app "; features := Some [lit "auth"; lit "tags"] |}.

(** * Properties *)

(** ** Strings *)

Lemma eqb_eq (a b : str) : eqb a b = true <-> a = b.
Proof.
  revert b; induction a as [|x a IH]; intros [|y b]; simpl;
    try (split; (reflexivity || discriminate)).
  rewrite andb_true_iff, N.eqb_eq, IH.
  split.
  - intros [-> ->]; reflexivity.
  - intros H; injection H as -> ->; split; reflexivity.
Qed.

Lemma eqb_refl (a : str) : eqb a a = true.
Proof. apply eqb_eq; reflexivity. Qed.

Lemma eqb_neq (a b : str) : eqb a b = false <-> a <> b.
Proof.
  rewrite <- eqb_eq.
  destruct (eqb a b); split; (congruence || discriminate).
Qed.

Lemma truthy_true (s : str) : truthy s = true <-> s <> [].
Proof. destruct s; simpl; split; (congruence || discriminate). Qed.

Lemma truthy_false (s : str) : truthy s = false <-> s = [].
Proof. destruct s; simpl; split; (congruence || discriminate). Qed.

Lemma or_else_empty (s : str) : or_else s (lit "") = s.
Proof. destruct s; reflexivity. Qed.

Lemma startswith_app (p s : str) :
  startswith p s = true <-> exists t, s = p ++ t.
Proof.
  revert s; induction p as [|x p IH]; intros s; simpl.
  - split; [exists s; reflexivity | reflexivity].
  - destruct s as [|y s].
    + split; [discriminate | intros [t H]; discriminate].
    + rewrite andb_true_iff, N.eqb_eq, IH.
      split.
      * intros [-> [t ->]]; exists t; reflexivity.
      * intros [t H]; injection H as -> ->; split; [reflexivity | now exists t].
Qed.

Lemma contains_occurs (sub s : str) :
  contains sub s = true <-> occurs_in sub s.
Proof.
  unfold occurs_in.
  induction s as [|y s IH].
  - cbn [contains]. rewrite orb_false_r, startswith_app.
    split.
    + intros [t H]; exists [], t; exact H.
    + intros [a [b H]]. destruct a; [now exists b|discriminate].
  - cbn [contains]. rewrite orb_true_iff, startswith_app, IH.
    split.
    + intros [[t H] | [a [b H]]].
      * exists [], t; exact H.
      * exists (y :: a), b; simpl; now rewrite H.
    + intros [[|x a] [b H]].
      * left; now exists b.
      * right; exists a, b. simpl in H. now injection H.
Qed.

Lemma any_in_occurs (words : list str) (s : str) :
  any_in words s = true <-> exists k, In k words /\ occurs_in k s.
Proof.
  unfold any_in. rewrite existsb_exists.
  split; intros [k [Hin H]]; exists k; split; auto; now apply contains_occurs.
Qed.

Lemma lstrip_nil (s : str) : lstrip s = [] <-> blank s.
Proof.
  unfold blank; induction s as [|c s IH]; simpl.
  - split; auto.
  - destruct (isspace c) eqn:E.
    + rewrite IH. split; [now constructor | now inversion 1].
    + split; [discriminate | inversion 1; congruence].
Qed.

Lemma blank_rev (s : str) : blank (rev s) <-> blank s.
Proof.
  unfold blank; rewrite !Forall_forall.
  split; intros H x Hx; apply H; [now apply in_rev in Hx | now apply in_rev].
Qed.

Lemma rstrip_nil (s : str) : rstrip s = [] <-> blank s.
Proof.
  unfold rstrip. rewrite <- blank_rev, <- lstrip_nil.
  split; intros H.
  - apply (f_equal (@rev N)) in H. now rewrite rev_involutive in H.
  - now rewrite H.
Qed.

Lemma lstrip_blank (s : str) : blank (lstrip s) <-> blank s.
Proof.
  unfold blank; induction s as [|c s IH]; simpl; [tauto|].
  destruct (isspace c) eqn:E; [|tauto].
  rewrite IH. split; [now constructor | now inversion 1].
Qed.

(** Trimming leaves nothing exactly when the string is whitespace only. *)
Lemma strip_nil (s : str) : strip s = [] <-> blank s.
Proof. unfold strip. now rewrite rstrip_nil, lstrip_blank. Qed.

Lemma lstrip_split (s : str) :
  exists a, s = a ++ lstrip s /\ blank a /\
            (forall c t, lstrip s = c :: t -> isspace c = false).
Proof.
  induction s as [|c s (a & Ha & Hb & Hc)]; simpl.
  - exists []; repeat split; [constructor | discriminate].
  - destruct (isspace c) eqn:E.
    + exists (c :: a); repeat split.
      * simpl; now rewrite <- Ha.
      * now constructor.
      * exact Hc.
    + exists []; repeat split; [constructor|].
      intros c' t H; now injection H as <- _.
Qed.

(** [strip] removes a whitespace prefix and a whitespace suffix, and what
    is left neither starts nor ends with whitespace. *)
Lemma strip_split (s : str) :
  exists a b, s = a ++ strip s ++ b /\ blank a /\ blank b /\
    (forall c t, strip s = c :: t -> isspace c = false) /\
    (forall c t, strip s = t ++ [c] -> isspace c = false).
Proof.
  unfold strip, rstrip.
  destruct (lstrip_split s) as (a & Ha & Hba & Hca).
  destruct (lstrip_split (rev (lstrip s))) as (b & Hb & Hbb & Hcb).
  set (m := lstrip (rev (lstrip s))) in *.
  assert (Hm : lstrip s = rev m ++ rev b).
  { rewrite <- rev_app_distr, <- Hb. now rewrite rev_involutive. }
  exists a, (rev b). repeat split.
  - now rewrite <- Hm.
  - exact Hba.
  - now apply blank_rev.
  - intros c t H. destruct (rev m) as [|c0 t0] eqn:Em; [discriminate|].
    injection H as -> ->. apply (Hca c (t ++ rev b)). now rewrite Hm.
  - intros c t H. apply (Hcb c (rev t)).
    apply (f_equal (@rev N)) in H.
    rewrite rev_involutive, rev_app_distr in H. exact H.
Qed.

(** ** The chat heuristic *)

Lemma last_user_snoc (h : list ChatMessage) (x : ChatMessage) :
  last_user (h ++ [x]) =
  if eqb (role x) (lit "user") then Some (content x) else last_user h.
Proof.
  unfold last_user. rewrite rev_app_distr. simpl.
  destruct (eqb (role x) (lit "user")); reflexivity.
Qed.

Lemma last_user_some (hist : list ChatMessage) (c : str) :
  last_user hist = Some c <-> most_recent_user hist c.
Proof.
  unfold most_recent_user. split.
  - revert c. induction hist as [|x h IH] using rev_ind; intros c H.
    + discriminate.
    + rewrite last_user_snoc in H.
      destruct (eqb (role x) (lit "user")) eqn:E.
      * injection H as <-. apply eqb_eq in E.
        exists h, x, []. repeat split; auto.
      * apply eqb_neq in E.
        destruct (IH c H) as (b & m & a & -> & Hr & Hc & Ha).
        exists b, m, (a ++ [x]). repeat split; auto.
        -- now rewrite <- app_assoc.
        -- apply Forall_app; split; auto.
  - intros (b & m & a & -> & Hr & Hc & Ha).
    induction a as [|x a IH] using rev_ind.
    + rewrite last_user_snoc. apply eqb_eq in Hr. rewrite Hr. now subst.
    + apply Forall_app in Ha as [Ha Hx].
      change (b ++ m :: a ++ [x]) with (b ++ (m :: a) ++ [x]).
      rewrite app_assoc, last_user_snoc.
      inversion Hx as [|? ? Hx' _]; subst.
      apply eqb_neq in Hx'. rewrite Hx'. now apply IH.
Qed.

Lemma last_user_none (hist : list ChatMessage) :
  last_user hist = None <-> Forall (fun x => role x <> lit "user") hist.
Proof.
  induction hist as [|x h IH] using rev_ind.
  - split; [constructor | reflexivity].
  - rewrite last_user_snoc, Forall_app.
    destruct (eqb (role x) (lit "user")) eqn:E.
    + apply eqb_eq in E. split; [discriminate|].
      intros [_ H]; inversion H; congruence.
    + apply eqb_neq in E. rewrite IH. split; [|tauto].
      intros H; split; auto.
Qed.

(** On a list, the guard [req.history and len(req.history) > 0] only skips
    the empty history, which has no user entry anyway. *)
Lemma echo_hint_some (m : str) (hist : list ChatMessage) (base : str) :
  echo_hint m (Some hist) base =
  match last_user hist with
  | None => base
  | Some c =>
      if truthy c && negb (eqb c m) && (len c <? 120)
      then base ++ note c else base
  end.
Proof. destruct hist; reflexivity. Qed.

Lemma noted_guard (m c : str) :
  truthy c && negb (eqb c m) && (len c <? 120) = true <-> noted m c.
Proof.
  unfold noted, len.
  rewrite !andb_true_iff, negb_true_iff, truthy_true, eqb_neq, N.ltb_lt.
  split; intros [[H1 H2] H3] || intros [H1 [H2 H3]]; repeat split; auto; lia.
Qed.

Lemma echo_hint_noted (m : str) (hist : list ChatMessage) (base c : str) :
  most_recent_user hist c -> noted m c ->
  echo_hint m (Some hist) base = base ++ note c.
Proof.
  intros Hc Hn. rewrite echo_hint_some.
  apply last_user_some in Hc. rewrite Hc.
  apply noted_guard in Hn. now rewrite Hn.
Qed.

Lemma echo_hint_plain (m : str) (hist : list ChatMessage) (base : str) :
  ~ (exists c, most_recent_user hist c /\ noted m c) ->
  echo_hint m (Some hist) base = base.
Proof.
  intros H. rewrite echo_hint_some.
  destruct (last_user hist) as [c|] eqn:E; [|reflexivity].
  destruct (truthy c && negb (eqb c m) && (len c <? 120)) eqn:G;
    [|reflexivity].
  exfalso. apply H. exists c. split.
  - now apply last_user_some.
  - now apply noted_guard.
Qed.

Lemma echo_hint_shape (m : str) (h : option (list ChatMessage)) (base : str) :
  echo_hint m h base = base \/ exists c, echo_hint m h base = base ++ note c.
Proof.
  destruct h as [hist|]; [|now left].
  rewrite echo_hint_some.
  destruct (last_user hist) as [c|]; [|now left].
  destruct (truthy c && negb (eqb c m) && (len c <? 120));
    [right; now exists c | now left].
Qed.

Lemma note_nonempty (c : str) : note c <> [].
Proof. discriminate. Qed.

Lemma app_note_neq (base c : str) : base ++ note c <> base.
Proof.
  intros H. apply (f_equal (@List.length N)) in H.
  rewrite length_app in H. unfold note in H. rewrite length_app in H.
  simpl in H. lia.
Qed.

Lemma intent_reply_cases (l : str) :
  intent_reply l = greeting_reply \/ intent_reply l = build_reply \/
  intent_reply l = pricing_reply \/ intent_reply l = default_reply.
Proof.
  unfold intent_reply.
  destruct (any_in greeting_words l); auto.
  destruct (any_in build_words l); auto.
  destruct (any_in pricing_words l); auto.
Qed.

Lemma intent_reply_nonempty (l : str) : intent_reply l <> [].
Proof.
  destruct (intent_reply_cases l) as [-> | [-> | [-> | ->]]]; discriminate.
Qed.

Section ChatFacts.

Variable lower : str -> str.

Lemma chat_endpoint_blank (req : ChatRequest) :
  blank (message req) ->
  chat_endpoint lower req =
  HTTPException 400 (lit "Message cannot be empty").
Proof.
  intros H. unfold chat_endpoint. rewrite or_else_empty.
  apply strip_nil in H. now rewrite H.
Qed.

Lemma chat_endpoint_ok (req : ChatRequest) :
  ~ blank (message req) ->
  chat_endpoint lower req =
  Returned {| reply := echo_hint (strip (message req)) (history req)
                         (intent_reply (lower (strip (message req)))) |}.
Proof.
  intros H. unfold chat_endpoint. rewrite or_else_empty.
  destruct (strip (message req)) eqn:E; [|reflexivity].
  exfalso. apply H. now apply strip_nil.
Qed.

End ChatFacts.

Lemma nonblank_head (c : N) (s : str) : isspace c = false -> ~ blank (c :: s).
Proof. intros Hc H. inversion H; congruence. Qed.

Lemma nonblank_strip (s : str) : strip s <> [] -> ~ blank s.
Proof. intros H B. now apply strip_nil in B. Qed.

Lemma is_ascii_check (s : str) :
  forallb (fun c => c <? 128) s = true -> is_ascii s.
Proof.
  intros H. apply Forall_forall. intros c Hc.
  rewrite forallb_forall in H. now apply N.ltb_lt, H.
Qed.

Lemma note_inj (c c' : str) : note c = note c' -> c = c'.
Proof.
  unfold note. intros H.
  apply app_inv_head in H. now apply app_inv_tail in H.
Qed.

Lemma intent_reply_greeting (l : str) :
  mentions greeting_words l -> intent_reply l = greeting_reply.
Proof.
  intros H. apply any_in_occurs in H. unfold intent_reply. now rewrite H.
Qed.

Lemma not_mentions (words : list str) (l : str) :
  ~ mentions words l -> any_in words l = false.
Proof.
  intros H. destruct (any_in words l) eqn:E; [|reflexivity].
  exfalso. apply H. now apply any_in_occurs.
Qed.

Lemma intent_reply_build (l : str) :
  ~ mentions greeting_words l -> mentions build_words l ->
  intent_reply l = build_reply.
Proof.
  intros Hg Hb. apply not_mentions in Hg. apply any_in_occurs in Hb.
  unfold intent_reply. now rewrite Hg, Hb.
Qed.

Lemma intent_reply_pricing (l : str) :
  ~ mentions greeting_words l -> ~ mentions build_words l ->
  mentions pricing_words l -> intent_reply l = pricing_reply.
Proof.
  intros Hg Hb Hp. apply not_mentions in Hg, Hb. apply any_in_occurs in Hp.
  unfold intent_reply. now rewrite Hg, Hb, Hp.
Qed.

Lemma intent_reply_default (l : str) :
  ~ mentions greeting_words l -> ~ mentions build_words l ->
  ~ mentions pricing_words l -> intent_reply l = default_reply.
Proof.
  intros Hg Hb Hp. apply not_mentions in Hg, Hb, Hp.
  unfold intent_reply. now rewrite Hg, Hb, Hp.
Qed.

Lemma chat_answers_with (lower : str -> str) (req : ChatRequest) :
  ~ blank (message req) ->
  answers_with (chat_endpoint lower req)
               (intent_reply (lower (strip (message req)))).
Proof.
  intros H. rewrite (chat_endpoint_ok lower req H).
  eexists; split; [reflexivity|]. apply echo_hint_shape.
Qed.

Lemma greeting_not_build (r : handled ChatResponse) :
  answers_with r greeting_reply -> ~ answers_with r build_reply.
Proof.
  intros (a & -> & Ha) (b & Hb & Hb').
  injection Hb as <-.
  destruct Ha as [Ha | [c Ha]]; destruct Hb' as [Hb | [c' Hb]];
    rewrite Ha in Hb; discriminate Hb.
Qed.

(** ** Claims about the chat endpoint *)

(** C3. For every ChatRequest: when the message is empty or whitespace only
    (equivalently, by [strip_nil], empty after trimming) the chat endpoint
    raises HTTPException with status 400; otherwise it returns a
    ChatResponse whose reply is not the empty string. *)
Theorem chat_rejects_blank_else_replies
    (lower : str -> str) (req : ChatRequest) :
  (blank (message req) ->
   chat_endpoint lower req =
   HTTPException 400 (lit "Message cannot be empty")) /\
  (~ blank (message req) ->
   exists resp, chat_endpoint lower req = Returned resp /\ reply resp <> []).
Proof.
  split; intros H.
  - now apply chat_endpoint_blank.
  - rewrite (chat_endpoint_ok lower req H).
    eexists; split; [reflexivity|]. cbn [reply].
    destruct (echo_hint_shape (strip (message req)) (history req)
                (intent_reply (lower (strip (message req))))) as [E | [c E]];
      rewrite E.
    + apply intent_reply_nonempty.
    + intros F. apply app_eq_nil in F as [F _].
      now apply intent_reply_nonempty in F.
Qed.

Lemma chat_rejects_blank_else_replies_witness :
  chat_endpoint ascii_lower {| message := lit "  "; history := None |} =
  HTTPException 400 (lit "Message cannot be empty") /\
  exists resp,
    chat_endpoint ascii_lower {| message := lit "pricing?"; history := None |}
    = Returned resp /\ reply resp <> [].
Proof.
  split.
  - apply (proj1 (chat_rejects_blank_else_replies ascii_lower
                    {| message := lit "  "; history := None |})).
    repeat constructor.
  - apply (proj2 (chat_rejects_blank_else_replies ascii_lower
                    {| message := lit "pricing?"; history := None |})).
    apply nonblank_head. reflexivity.
Defined.

(** C4. The keyword sets are tried on the lower-cased trimmed message in the
    order greeting, build intent, pricing, default, and the first set with a
    keyword occurring in it decides the base reply.  A message with both a
    greeting keyword and a build keyword gets the greeting reply and not the
    build reply; so does "hi, I want to build an app" (for any [lower] that
    lower-cases ASCII text as Python does). *)
Theorem chat_keyword_priority (lower : str -> str) (req : ChatRequest) :
  ~ blank (message req) ->
  let l := lower (strip (message req)) in
  let r := chat_endpoint lower req in
  (mentions greeting_words l -> answers_with r greeting_reply) /\
  (~ mentions greeting_words l -> mentions build_words l ->
   answers_with r build_reply) /\
  (~ mentions greeting_words l -> ~ mentions build_words l ->
   mentions pricing_words l -> answers_with r pricing_reply) /\
  (~ mentions greeting_words l -> ~ mentions build_words l ->
   ~ mentions pricing_words l -> answers_with r default_reply) /\
  (mentions greeting_words l -> mentions build_words l ->
   answers_with r greeting_reply /\ ~ answers_with r build_reply) /\
  ((forall s, is_ascii s -> lower s = ascii_lower s) ->
   chat_endpoint lower
     {| message := lit "hi, I want to build an app"; history := None |} =
   Returned {| reply := greeting_reply |}).
Proof.
  intros Hm l r.
  pose proof (chat_answers_with lower req Hm) as A. fold l r in A.
  assert (G : mentions greeting_words l -> answers_with r greeting_reply).
  { intros H. now rewrite <- (intent_reply_greeting H). }
  repeat split.
  - exact G.
  - intros Hg Hb. now rewrite <- (intent_reply_build Hg Hb).
  - intros Hg Hb Hp. now rewrite <- (intent_reply_pricing Hg Hb Hp).
  - intros Hg Hb Hp. now rewrite <- (intent_reply_default Hg Hb Hp).
  - auto.
  - apply greeting_not_build; auto.
  - intros Hl. unfold chat_endpoint.
    assert (E : strip (or_else (message {| message := lit "hi, I want to build an app";
                                           history := None |}) (lit ""))
                = lit "hi, I want to build an app") by reflexivity.
    rewrite E. rewrite Hl by (apply is_ascii_check; reflexivity).
    reflexivity.
Qed.

Lemma chat_keyword_priority_witness :
  ~ blank (lit "Hey, create a website") /\
  answers_with
    (chat_endpoint ascii_lower
       {| message := lit "Hey, create a website"; history := None |})
    greeting_reply /\
  chat_endpoint ascii_lower
    {| message := lit "hi, I want to build an app"; history := None |} =
  Returned {| reply := greeting_reply |}.
Proof.
  assert (H : ~ blank (lit "Hey, create a website"))
    by (apply nonblank_head; reflexivity).
  pose proof (chat_keyword_priority ascii_lower
                {| message := lit "Hey, create a website"; history := None |}
                H) as P.
  cbv zeta in P.
  destruct P as (Pg & _ & _ & _ & _ & Pex).
  split; [exact H|]. split.
  - apply Pg. exists (lit "hey"). split.
    + right; right; left; reflexivity.
    + exists [], (lit ", create a website"). reflexivity.
  - apply Pex. intros s _. reflexivity.
Defined.

(** C5, as the specification states it, fails: for message "plan" and the
    history [[{role: user, content: ""}]] the most recent user entry differs
    from the message and is shorter than 120 characters, yet no note is
    appended (the guard [if last_user and ...] skips an empty content). *)
Lemma chat_note_rule_fails_on_empty_content :
  let req := {| message := lit "plan"; history := Some [user_says (lit "")] |} in
  most_recent_user [user_says (lit "")] (lit "") /\
  lit "" <> strip (message req) /\
  (List.length (lit "") < 120)%nat /\
  chat_endpoint ascii_lower req = Returned {| reply := default_reply |} /\
  forall c,
    chat_endpoint ascii_lower req <>
    Returned {| reply := default_reply ++ note c |}.
Proof.
  cbv zeta. repeat split.
  - exists [], (user_says (lit "")), []. repeat split. constructor.
  - discriminate.
  - simpl; lia.
  - intros c H. injection H as H. discriminate H.
Qed.

(** C5 (amended). For every valid chat request with a history, the note is
    appended to the reply if and only if the most recent entry with role
    "user" (the first one met scanning the history in reverse) has a content
    that is non-empty, differs from the trimmed current message and is
    shorter than 120 characters, and then the note quotes that content.  In
    particular, for message "plan" and history
    [[{role: user, content: "make it fast"}]] the reply ends with
    "Also noted: 'make it fast'."; no note is appended when the most recent
    user entry equals the current message, nor when its content has 120
    characters or more. *)
Theorem chat_note_rule
    (lower : str -> str) (req : ChatRequest) (hist : list ChatMessage) :
  ~ blank (message req) ->
  history req = Some hist ->
  let m := strip (message req) in
  let base := intent_reply (lower m) in
  (exists resp,
      chat_endpoint lower req = Returned resp /\
      (reply resp = base \/ exists c, reply resp = base ++ note c) /\
      (forall c, reply resp = base ++ note c <->
                 most_recent_user hist c /\
                 c <> [] /\ c <> m /\ (List.length c < 120)%nat)) /\
  (most_recent_user hist m ->
   chat_endpoint lower req = Returned {| reply := base |}) /\
  (forall c, most_recent_user hist c -> (120 <= List.length c)%nat ->
   chat_endpoint lower req = Returned {| reply := base |}) /\
  (exists before,
      chat_endpoint lower
        {| message := lit "plan";
           history := Some [user_says (lit "make it fast")] |} =
      Returned {| reply := before ++ lit "Also noted: 'make it fast'." |}).
Proof.
  intros Hm Hh m base.
  rewrite (chat_endpoint_ok lower req Hm), Hh. fold m base.
  assert (U : forall c c', most_recent_user hist c ->
                           most_recent_user hist c' -> c = c').
  { intros c c' H H'. apply last_user_some in H, H'. congruence. }
  repeat split.
  - eexists; split; [reflexivity|]. cbn [reply]. split.
    + apply echo_hint_shape.
    + intros c. split.
      * intros E. rewrite echo_hint_some in E.
        destruct (last_user hist) as [c'|] eqn:L.
        -- destruct (truthy c' && negb (eqb c' m) && (len c' <? 120)) eqn:G.
           ++ apply app_inv_head, note_inj in E. subst c'.
              split; [now apply last_user_some | now apply noted_guard].
           ++ symmetry in E. now apply app_note_neq in E.
        -- symmetry in E. now apply app_note_neq in E.
      * intros [Hc Hn]. now rewrite (echo_hint_noted base Hc Hn).
  - intros Hc. rewrite echo_hint_plain; [reflexivity|].
    intros (c & Hc' & _ & Hne & _). apply Hne. now apply (U c m).
  - intros c Hc Hlen. rewrite echo_hint_plain; [reflexivity|].
    intros (c' & Hc' & _ & _ & Hlt). rewrite (U c c' Hc Hc') in Hlen. lia.
  - exists (intent_reply (lower (lit "plan")) ++ lit " ").
    rewrite <- app_assoc. reflexivity.
Qed.

Lemma chat_note_rule_witness :
  let req := {| message := lit "plan";
                history := Some [user_says (lit "make it fast")] |} in
  ~ blank (message req) /\
  history req = Some [user_says (lit "make it fast")] /\
  exists resp,
    chat_endpoint ascii_lower req = Returned resp /\
    (reply resp = default_reply ++ note (lit "make it fast") <->
     most_recent_user [user_says (lit "make it fast")] (lit "make it fast") /\
     lit "make it fast" <> [] /\ lit "make it fast" <> lit "plan" /\
     (List.length (lit "make it fast") < 120)%nat).
Proof.
  cbv zeta.
  assert (H : ~ blank (lit "plan")) by (apply nonblank_head; reflexivity).
  split; [exact H|]. split; [reflexivity|].
  destruct (chat_note_rule ascii_lower
              {| message := lit "plan";
                 history := Some [user_says (lit "make it fast")] |}
              H eq_refl) as [(resp & E & _ & I) _].
  exists resp. split; [exact E|]. exact (I (lit "make it fast")).
Defined.



(** ** The plan builder *)

Lemma features_or_empty_eq (f : option (list str)) :
  features_or_empty f = match f with Some l => l | None => [] end.
Proof. destruct f as [[|x l]|]; reflexivity. Qed.

Section PlanFacts.

Variables DocId Exc Store : Type.
Variable str_of_id : DocId -> str.

Lemma plan_endpoint_blank (req : PlanRequest) :
  blank (idea req) ->
  plan_endpoint Exc str_of_id req = Ret (HTTPException 400 (lit "Idea is required")).
Proof.
  intros H. unfold plan_endpoint. rewrite or_else_empty.
  apply strip_nil in H. now rewrite H.
Qed.

Lemma plan_endpoint_ok (req : PlanRequest) :
  ~ blank (idea req) ->
  plan_endpoint Exc str_of_id req =
  CreateDocument (lit "generation") (generation_of req)
    (fun o => Ret (Returned
       {| resp_id := py_str str_of_id (inserted_id_of o);
          resp_status := lit "planned";
          resp_plan := plan_of req |})).
Proof.
  intros H.
  assert (T : truthy (strip (idea req)) = true).
  { apply truthy_true. intros E. apply H. now apply strip_nil. }
  unfold plan_endpoint. rewrite or_else_empty. cbv zeta. rewrite T.
  reflexivity.
Qed.

(** A run on a request with a usable idea: one call, and the response
    that goes with its outcome. *)
Lemma run_plan_endpoint_ok
    (req : PlanRequest) (db : gateway DocId Exc Store) (st : Store) :
  ~ blank (idea req) ->
  run db (plan_endpoint Exc str_of_id req) st =
  {| produced :=
       Returned (response_of str_of_id req
                   (fst (db (lit "generation") (generation_of req) st)));
     store_after := snd (db (lit "generation") (generation_of req) st);
     calls := [(lit "generation", generation_of req)] |}.
Proof.
  intros H. rewrite (plan_endpoint_ok req H). cbn [run].
  destruct (db (lit "generation") (generation_of req) st) as [[i|e] st'];
    reflexivity.
Qed.

Lemma run_plan_endpoint_blank
    (req : PlanRequest) (db : gateway DocId Exc Store) (st : Store) :
  blank (idea req) ->
  run db (plan_endpoint Exc str_of_id req) st =
  {| produced := HTTPException 400 (lit "Idea is required");
     store_after := st;
     calls := [] |}.
Proof. intros H. now rewrite (plan_endpoint_blank req H). Qed.

Lemma blank_dec (s : str) : {blank s} + {~ blank s}.
Proof.
  apply Forall_dec. intros c. destruct (isspace c); [now left|now right].
Qed.

End PlanFacts.

(** ** Claims about the plan endpoint *)

Section PlanClaims.

Variables DocId Exc Store : Type.
Variable str_of_id : DocId -> str.

(** C1. For every PlanRequest whose idea is non-empty after trimming, the
    plan endpoint returns a PlanResponse also when the persistence call
    raises: whatever exception the gateway raises, the run ends with a
    response and not with an error, the response's id is "no-db", and its
    plan is the plan returned when the store accepts the document. *)
Theorem plan_survives_store_failure
    (req : PlanRequest) (db : gateway DocId Exc Store) (st : Store)
    (e : Exc) :
  ~ blank (idea req) ->
  fst (db (lit "generation") (generation_of req) st) = Raised e ->
  exists resp,
    produced (run db (plan_endpoint Exc str_of_id req) st) = Returned resp /\
    resp_id resp = lit "no-db" /\
    resp_status resp = lit "planned" /\
    forall (db' : gateway DocId Exc Store) (st' : Store) (i : DocId),
      fst (db' (lit "generation") (generation_of req) st') = Inserted i ->
      exists resp',
        produced (run db' (plan_endpoint Exc str_of_id req) st')
        = Returned resp' /\
        resp_id resp' = str_of_id i /\
        resp_plan resp = resp_plan resp'.
Proof.
  intros H Hr.
  rewrite (run_plan_endpoint_ok str_of_id req db st H), Hr. cbn [produced].
  eexists; split; [reflexivity|]. repeat split.
  intros db' st' i Hi.
  rewrite (run_plan_endpoint_ok str_of_id req db' st' H), Hi.
  cbn [produced]. eexists; split; [reflexivity|]. split; reflexivity.
Qed.

(** C6. For every PlanRequest whose idea is empty or whitespace only, the
    plan endpoint raises HTTPException with status 400 and makes no
    persistence attempt: the handler is the program that returns at once,
    and run against any gateway it makes no [create_document] call and
    leaves the store as it was. *)
Theorem plan_rejects_blank_without_persisting
    (req : PlanRequest) (db : gateway DocId Exc Store) (st : Store) :
  blank (idea req) ->
  plan_endpoint Exc str_of_id req =
    Ret (HTTPException 400 (lit "Idea is required")) /\
  produced (run db (plan_endpoint Exc str_of_id req) st) =
    HTTPException 400 (lit "Idea is required") /\
  calls (run db (plan_endpoint Exc str_of_id req) st) = [] /\
  store_after (run db (plan_endpoint Exc str_of_id req) st) = st.
Proof.
  intros H. split; [now apply plan_endpoint_blank|].
  rewrite (run_plan_endpoint_blank str_of_id req db st H).
  repeat split.
Qed.

(** The fixed fields of any plan the endpoint returns. *)
Lemma returned_plan_literals
    (req : PlanRequest) (db : gateway DocId Exc Store) (st : Store)
    (resp : PlanResponse) :
  produced (run db (plan_endpoint Exc str_of_id req) st) = Returned resp ->
  frontend (resp_plan resp) = plan_frontend /\
  backend (resp_plan resp) = plan_backend /\
  next_steps (resp_plan resp) = plan_next_steps.
Proof.
  intros H.
  destruct (blank_dec (idea req)) as [B|B].
  - rewrite (run_plan_endpoint_blank str_of_id req db st B) in H.
    discriminate H.
  - rewrite (run_plan_endpoint_ok str_of_id req db st B) in H.
    injection H as <-. repeat split.
Qed.

(** C7. Whatever two plan requests are served, the returned plans agree
    on every field but the summary and the features: frontend, backend and
    next_steps are the fixed literals of the handler.  (A request whose
    idea is non-empty after trimming does get a plan.) *)
Theorem plan_fixed_fields
    (req1 req2 : PlanRequest) (db1 db2 : gateway DocId Exc Store)
    (st1 st2 : Store) (resp1 resp2 : PlanResponse) :
  produced (run db1 (plan_endpoint Exc str_of_id req1) st1)
    = Returned resp1 ->
  produced (run db2 (plan_endpoint Exc str_of_id req2) st2)
    = Returned resp2 ->
  (frontend (resp_plan resp1) = frontend (resp_plan resp2) /\
   backend (resp_plan resp1) = backend (resp_plan resp2) /\
   next_steps (resp_plan resp1) = next_steps (resp_plan resp2)) /\
  (frontend (resp_plan resp1) = plan_frontend /\
   backend (resp_plan resp1) = plan_backend /\
   next_steps (resp_plan resp1) = plan_next_steps).
Proof.
  intros H1 H2.
  destruct (returned_plan_literals _ _ _ H1) as (a1 & b1 & c1).
  destruct (returned_plan_literals _ _ _ H2) as (a2 & b2 & c2).
  repeat split; congruence.
Qed.

(** A request whose idea is non-empty after trimming is answered with a
    response, whatever the store does. *)
Lemma plan_returned
    (req : PlanRequest) (db : gateway DocId Exc Store) (st : Store) :
  ~ blank (idea req) ->
  exists resp,
    produced (run db (plan_endpoint Exc str_of_id req) st) = Returned resp.
Proof.
  intros H. rewrite (run_plan_endpoint_ok str_of_id req db st H).
  eexists; reflexivity.
Qed.

(** C2 (amended). For every PlanRequest whose idea is non-empty after
    trimming, the plan endpoint returns status "planned" and a plan whose
    summary is "Plan to build: " followed by the trimmed idea and whose
    features field is the input features list, or the empty list when
    features is omitted. *)
Theorem plan_summary_and_features
    (req : PlanRequest) (db : gateway DocId Exc Store) (st : Store) :
  ~ blank (idea req) ->
  exists resp,
    produced (run db (plan_endpoint Exc str_of_id req) st) = Returned resp /\
    resp_status resp = lit "planned" /\
    summary (resp_plan resp) = lit "Plan to build: " ++ strip (idea req) /\
    plan_features (resp_plan resp) =
      match features req with
      | Some l => l
      | None => []
      end.
Proof.
  intros H. rewrite (run_plan_endpoint_ok str_of_id req db st H).
  eexists; split; [reflexivity|]. repeat split.
  cbn. apply features_or_empty_eq.
Qed.

(** C9. For every PlanRequest whose idea is non-empty after trimming, the
    trimmed idea is used throughout: the summary of the returned plan is
    "Plan to build: " followed by the idea with its surrounding whitespace
    removed, and the one Generation record handed to [create_document] has
    the trimmed idea as its idea field (so not the raw string, when
    trimming changes it), and carries the same plan. *)
Theorem plan_uses_trimmed_idea
    (req : PlanRequest) (db : gateway DocId Exc Store) (st : Store) :
  ~ blank (idea req) ->
  exists resp gen,
    produced (run db (plan_endpoint Exc str_of_id req) st) = Returned resp /\
    calls (run db (plan_endpoint Exc str_of_id req) st)
      = [(lit "generation", gen)] /\
    summary (resp_plan resp) = lit "Plan to build: " ++ strip (idea req) /\
    gen_idea gen = strip (idea req) /\
    gen_plan gen = resp_plan resp /\
    (strip (idea req) <> idea req -> gen_idea gen <> idea req) /\
    (exists a b, idea req = a ++ strip (idea req) ++ b /\
                 blank a /\ blank b /\
                 (forall c t, strip (idea req) = c :: t ->
                              isspace c = false) /\
                 (forall c t, strip (idea req) = t ++ [c] ->
                              isspace c = false)).
Proof.
  intros H. rewrite (run_plan_endpoint_ok str_of_id req db st H).
  eexists; eexists; split; [reflexivity|]. split; [reflexivity|].
  repeat split; auto.
  apply strip_split.
Qed.

End PlanClaims.

(** *** The plan claims on concrete runs *)

Lemma todo_request_nonblank : ~ blank (idea todo_request).
Proof. apply nonblank_strip. discriminate. Defined.

Lemma plan_survives_store_failure_witness :
  ~ blank (idea todo_request) /\
  exists resp,
    produced (run (down_store (Store := list Generation))
                  (plan_endpoint str decimal_str todo_request) [])
    = Returned resp /\
    resp_id resp = lit "no-db" /\
    exists resp',
      produced (run memory_store
                    (plan_endpoint str decimal_str todo_request) [])
      = Returned resp' /\
      resp_id resp' = lit "0" /\
      resp_plan resp = resp_plan resp'.
Proof.
  split; [exact todo_request_nonblank|].
  destruct (@plan_survives_store_failure N str (list Generation) decimal_str
              todo_request (down_store (Store := list Generation)) []
              (lit "connection refused") todo_request_nonblank eq_refl)
    as (resp & E & I & _ & K).
  exists resp. split; [exact E|]. split; [exact I|].
  exact (K memory_store [] 0 eq_refl).
Defined.

Lemma plan_rejects_blank_without_persisting_witness :
  let req := {| idea := lit "   "; features := Some [lit "auth"] |} in
  blank (idea req) /\
  produced (run memory_store (plan_endpoint str decimal_str req) []) =
    HTTPException 400 (lit "Idea is required") /\
  calls (run memory_store (plan_endpoint str decimal_str req) []) = [] /\
  store_after (run memory_store (plan_endpoint str decimal_str req) []) = [].
Proof.
  cbv zeta.
  assert (B : blank (lit "   ")) by (repeat constructor).
  split; [exact B|].
  exact (proj2 (@plan_rejects_blank_without_persisting
                  N str (list Generation) decimal_str
                  {| idea := lit "   "; features := Some [lit "auth"] |}
                  memory_store [] B)).
Defined.

Lemma plan_fixed_fields_witness :
  let req2 := {| idea := lit "blog"; features := None |} in
  exists resp1 resp2,
    produced (run memory_store (plan_endpoint str decimal_str todo_request) [])
      = Returned resp1 /\
    produced (run (down_store (Store := list Generation))
                  (plan_endpoint str decimal_str req2) [])
      = Returned resp2 /\
    summary (resp_plan resp1) <> summary (resp_plan resp2) /\
    frontend (resp_plan resp1) = frontend (resp_plan resp2) /\
    backend (resp_plan resp1) = backend (resp_plan resp2) /\
    next_steps (resp_plan resp1) = next_steps (resp_plan resp2).
Proof.
  cbv zeta. eexists; eexists.
  split; [reflexivity|]. split; [reflexivity|]. split; [discriminate|].
  exact (proj1 (@plan_fixed_fields N str (list Generation) decimal_str
                  todo_request {| idea := lit "blog"; features := None |}
                  memory_store (down_store (Store := list Generation))
                  [] [] _ _ eq_refl eq_refl)).
Defined.

(** C2, as the specification states it, fails on a request whose idea has
    surrounding whitespace: for idea " x " the summary is
    "Plan to build: x", which is not "Plan to build: " followed by the idea
    of the request; and the idea "  ", which is not the empty string, is
    answered with the 400 error and no plan at all. *)
Lemma plan_summary_is_not_raw_idea :
  let req := {| idea := lit " x "; features := None |} in
  let req' := {| idea := lit "  "; features := None |} in
  idea req <> [] /\
  (exists resp,
      produced (run memory_store (plan_endpoint str decimal_str req) [])
        = Returned resp /\
      summary (resp_plan resp) = lit "Plan to build: x" /\
      summary (resp_plan resp) <> lit "Plan to build: " ++ idea req) /\
  idea req' <> [] /\
  produced (run memory_store (plan_endpoint str decimal_str req') [])
    = HTTPException 400 (lit "Idea is required").
Proof.
  cbv zeta. split; [discriminate|]. split.
  - eexists. split; [reflexivity|]. split; [reflexivity|discriminate].
  - split; [discriminate|reflexivity].
Qed.

Lemma plan_summary_and_features_witness :
  ~ blank (idea todo_request) /\
  exists resp,
    produced (run memory_store (plan_endpoint str decimal_str todo_request) [])
      = Returned resp /\
    resp_status resp = lit "planned" /\
    summary (resp_plan resp) = lit "Plan to build: todo app" /\
    plan_features (resp_plan resp) = [lit "auth"; lit "tags"].
Proof.
  split; [exact todo_request_nonblank|].
  exact (@plan_summary_and_features N str (list Generation) decimal_str
           todo_request memory_store [] todo_request_nonblank).
Defined.

Lemma plan_uses_trimmed_idea_witness :
  ~ blank (idea todo_request) /\
  exists resp gen,
    produced (run memory_store (plan_endpoint str decimal_str todo_request) [])
      = Returned resp /\
    calls (run memory_store (plan_endpoint str decimal_str todo_request) [])
      = [(lit "generation", gen)] /\
    summary (resp_plan resp) = lit "Plan to build: todo app" /\
    gen_idea gen = lit "todo app".
Proof.
  split; [exact todo_request_nonblank|].
  destruct (@plan_uses_trimmed_idea N str (list Generation) decimal_str
              todo_request memory_store [] todo_request_nonblank)
    as (resp & gen & E & C & S & G & _).
  exists resp, gen. repeat split; assumption.
Defined.

(** * Further properties of the handlers *)

(** ** More on trimming and substrings *)

Lemma lstrip_app_blank (a s : str) : blank a -> lstrip (a ++ s) = lstrip s.
Proof.
  induction a as [|c a IH]; intros H; [reflexivity|].
  inversion H as [|? ? Hc Ha]; subst. simpl. rewrite Hc. now apply IH.
Qed.

Lemma lstrip_app_nonblank (s b : str) :
  ~ blank s -> lstrip (s ++ b) = lstrip s ++ b.
Proof.
  induction s as [|c s IH]; intros H.
  - exfalso. apply H. constructor.
  - simpl. destruct (isspace c) eqn:E; [|reflexivity].
    apply IH. intros B. apply H. now constructor.
Qed.

Lemma blank_app (a b : str) : blank a -> blank b -> blank (a ++ b).
Proof. intros Ha Hb. apply Forall_app. now split. Qed.

Lemma rstrip_app_blank (s b : str) : blank b -> rstrip (s ++ b) = rstrip s.
Proof.
  intros H. unfold rstrip. rewrite rev_app_distr.
  rewrite lstrip_app_blank; [reflexivity|]. now apply blank_rev.
Qed.

(** Whitespace around a string does not change what [strip] returns. *)
Lemma strip_padding (a s b : str) :
  blank a -> blank b -> strip (a ++ s ++ b) = strip s.
Proof.
  intros Ha Hb. unfold strip. rewrite (lstrip_app_blank _ Ha).
  destruct (blank_dec s) as [Bs|Bs].
  - assert (E1 : lstrip (s ++ b) = []) by (apply lstrip_nil; now apply blank_app).
    assert (E2 : lstrip s = []) by now apply lstrip_nil.
    now rewrite E1, E2.
  - rewrite (lstrip_app_nonblank _ Bs). now apply rstrip_app_blank.
Qed.

Lemma strip_idempotent (s : str) : strip (strip s) = strip s.
Proof.
  destruct (strip_split s) as (a & b & E & Ha & Hb & _).
  rewrite E at 2. symmetry. now apply strip_padding.
Qed.

Lemma occurs_in_rev (k s : str) : occurs_in k s -> occurs_in (rev k) (rev s).
Proof.
  intros (a & b & ->). exists (rev b), (rev a).
  now rewrite !rev_app_distr, app_assoc.
Qed.

Lemma occurs_in_lstrip (c : N) (k s : str) :
  isspace c = false -> occurs_in (c :: k) s -> occurs_in (c :: k) (lstrip s).
Proof.
  intros Hc. induction s as [|x s IH]; intros H; [exact H|].
  simpl. destruct (isspace x) eqn:E; [|exact H].
  apply IH. destruct H as ([|y a] & b & H).
  - simpl in H. injection H as -> _. congruence.
  - simpl in H. injection H as _ ->. now exists a, b.
Qed.

Lemma occurs_in_rstrip (c : N) (k s : str) :
  isspace c = false ->
  occurs_in (k ++ [c]) s -> occurs_in (k ++ [c]) (rstrip s).
Proof.
  intros Hc H. unfold rstrip.
  apply occurs_in_rev in H. rewrite rev_app_distr in H. simpl in H.
  apply (occurs_in_lstrip Hc), occurs_in_rev in H.
  simpl in H. now rewrite rev_involutive in H.
Qed.

(** A run of non-whitespace characters that occurs in a string still occurs
    in it after trimming. *)
Lemma occurs_in_strip (k s : str) :
  k <> [] -> Forall (fun c => isspace c = false) k ->
  occurs_in k s -> occurs_in k (strip s).
Proof.
  intros Hne Hk H. unfold strip.
  destruct k as [|c k]; [congruence|].
  inversion Hk as [|? ? Hc Hk']; subst.
  apply (occurs_in_lstrip Hc) in H.
  destruct (exists_last (l := c :: k)) as (k0 & c0 & E); [discriminate|].
  assert (Hc0 : isspace c0 = false).
  { rewrite Forall_forall in Hk. apply Hk. rewrite E.
    apply in_or_app. right. now left. }
  rewrite E in H |- *. now apply occurs_in_rstrip.
Qed.

Lemma occurs_in_ascii_lower (u s : str) :
  occurs_in u s -> occurs_in (ascii_lower u) (ascii_lower s).
Proof.
  intros (a & b & ->). exists (ascii_lower a), (ascii_lower b).
  unfold ascii_lower. now rewrite !map_app.
Qed.

Lemma is_ascii_strip (s : str) : is_ascii s -> is_ascii (strip s).
Proof.
  intros H. destruct (strip_split s) as (a & b & E & _).
  unfold is_ascii in *. rewrite E in H.
  apply Forall_app in H as [_ H]. now apply Forall_app in H as [H _].
Qed.

Lemma isspace_ascii_lower_char (c : N) :
  isspace (ascii_lower_char c) = false -> isspace c = false.
Proof.
  unfold ascii_lower_char.
  destruct ((65 <=? c) && (c <=? 90)) eqn:E; [|auto].
  intros _. apply andb_true_iff in E as [E1 E2].
  apply N.leb_le in E1, E2. unfold isspace.
  repeat match goal with
         | |- context [?a <=? ?b] =>
             destruct (N.leb_spec a b); try lia
         | |- context [?a =? ?b] =>
             destruct (N.eqb_spec a b); try lia
         end; reflexivity.
Qed.

Lemma spaceless_ascii_lower (u : str) :
  Forall (fun c => isspace c = false) (ascii_lower u) ->
  Forall (fun c => isspace c = false) u.
Proof.
  unfold ascii_lower. induction u as [|c u IH]; intros H; [constructor|].
  inversion H; subst. constructor; auto using isspace_ascii_lower_char.
Qed.

(** ** More on the chat endpoint *)

Lemma keyword_spaceless (k : str) :
  In k (greeting_words ++ build_words ++ pricing_words) ->
  k <> [] /\ Forall (fun c => isspace c = false) k.
Proof.
  intros H. simpl in H.
  repeat (destruct H as [<- | H];
          [split; [discriminate | repeat constructor]|]).
  contradiction.
Qed.

(** A keyword written in any letter case in an ASCII message is found by
    the heuristic, which looks at the lower-cased trimmed message. *)
Lemma mentions_any_case
    (lower : str -> str) (words : list str) (msg u : str) :
  (forall s, is_ascii s -> lower s = ascii_lower s) ->
  incl words (greeting_words ++ build_words ++ pricing_words) ->
  is_ascii msg ->
  In (ascii_lower u) words ->
  occurs_in u msg ->
  ~ blank msg /\ mentions words (lower (strip msg)).
Proof.
  intros Hl Hw Ha Hk Hu.
  destruct (keyword_spaceless (Hw _ Hk)) as [Hne Hsp].
  assert (Hu0 : u <> []) by (intros ->; now apply Hne).
  apply spaceless_ascii_lower in Hsp.
  pose proof (occurs_in_strip Hu0 Hsp Hu) as Hs.
  split.
  - apply nonblank_strip. intros E. rewrite E in Hs.
    destruct Hs as (a & b & Hs). symmetry in Hs.
    apply app_eq_nil in Hs as [_ Hs]. apply app_eq_nil in Hs as [Hs _].
    contradiction.
  - rewrite (Hl _ (is_ascii_strip Ha)).
    exists (ascii_lower u). split; [exact Hk|].
    now apply occurs_in_ascii_lower.
Qed.

(** X1. The chat endpoint does not see whitespace around the message: padding
    the message with whitespace on either side gives the same result, reply
    or error. *)
Theorem chat_ignores_surrounding_whitespace
    (lower : str -> str) (a s b : str) (h : option (list ChatMessage)) :
  blank a -> blank b ->
  chat_endpoint lower {| message := a ++ s ++ b; history := h |} =
  chat_endpoint lower {| message := s; history := h |}.
Proof.
  intros Ha Hb. unfold chat_endpoint. cbn [message history].
  rewrite !or_else_empty. now rewrite (strip_padding s Ha Hb).
Qed.

Lemma chat_ignores_surrounding_whitespace_witness :
  chat_endpoint ascii_lower
    {| message := lit "  " ++ lit "Hello there" ++ [10]; history := None |} =
  chat_endpoint ascii_lower
    {| message := lit "Hello there"; history := None |}.
Proof.
  apply (chat_ignores_surrounding_whitespace ascii_lower
           (a := lit "  ") (lit "Hello there") (b := [10]) None);
    repeat constructor.
Defined.

(** X2. Keyword matching is by substring and blind to letter case on ASCII
    text: an ASCII message in which a greeting keyword occurs anywhere, in
    any mix of upper and lower case (also inside a longer word), is
    accepted and answered with the greeting reply. *)
Theorem chat_greets_keyword_in_any_case
    (lower : str -> str) (req : ChatRequest) (u : str) :
  (forall s, is_ascii s -> lower s = ascii_lower s) ->
  is_ascii (message req) ->
  In (ascii_lower u) greeting_words ->
  occurs_in u (message req) ->
  answers_with (chat_endpoint lower req) greeting_reply.
Proof.
  intros Hl Ha Hk Hu.
  assert (Hw : incl greeting_words
                 (greeting_words ++ build_words ++ pricing_words))
    by (intros k Hin; apply in_or_app; now left).
  destruct (mentions_any_case lower Hl Hw Ha Hk Hu) as [Hnb Hm].
  rewrite <- (intent_reply_greeting Hm).
  now apply chat_answers_with.
Qed.

Lemma chat_greets_keyword_in_any_case_witness :
  answers_with
    (chat_endpoint ascii_lower
       {| message := lit "What does THIS cost?"; history := None |})
    greeting_reply.
Proof.
  apply (chat_greets_keyword_in_any_case ascii_lower
           {| message := lit "What does THIS cost?"; history := None |}
           (u := lit "HI")).
  - intros s _. reflexivity.
  - apply is_ascii_check. reflexivity.
  - right; left; reflexivity.
  - exists (lit "What does T"), (lit "S cost?"). reflexivity.
Defined.

(** X3. Every reply the chat endpoint returns has between 58 and 250
    characters: one of the four canned replies, and at most a note that
    quotes fewer than 120 characters of history. *)
Theorem chat_reply_length_bounds
    (lower : str -> str) (req : ChatRequest) (resp : ChatResponse) :
  chat_endpoint lower req = Returned resp ->
  (58 <= List.length (reply resp) <= 250)%nat.
Proof.
  intros H.
  destruct (blank_dec (message req)) as [B|B].
  - rewrite (chat_endpoint_blank lower req B) in H. discriminate H.
  - rewrite (chat_endpoint_ok lower req B) in H. injection H as <-.
    cbn [reply].
    set (m := strip (message req)). set (base := intent_reply (lower m)).
    assert (Hb : (58 <= List.length base <= 115)%nat).
    { destruct (intent_reply_cases (lower m)) as [E | [E | [E | E]]];
        unfold base; rewrite E; vm_compute; lia. }
    destruct (history req) as [hist|]; [|cbn [echo_hint]; lia].
    rewrite echo_hint_some.
    destruct (last_user hist) as [c|]; [|lia].
    destruct (truthy c && negb (eqb c m) && (len c <? 120)) eqn:G; [|lia].
    apply noted_guard in G. destruct G as (_ & _ & G).
    unfold note. rewrite !length_app. simpl. lia.
Qed.

Lemma chat_reply_length_bounds_witness :
  let req := {| message := lit " hey";
                history := Some [user_says (lit "make it fast")] |} in
  let resp := {| reply := greeting_reply ++ note (lit "make it fast") |} in
  chat_endpoint ascii_lower req = Returned resp /\
  (58 <= List.length (reply resp) <= 250)%nat.
Proof.
  cbv zeta. split; [reflexivity|].
  exact (@chat_reply_length_bounds ascii_lower
           {| message := lit " hey";
              history := Some [user_says (lit "make it fast")] |}
           {| reply := greeting_reply ++ note (lit "make it fast") |}
           eq_refl).
Defined.

(** X4. Of the history only the most recent user entry counts: the entries
    before it, and the entries of other roles after it, do not change the
    result. *)
Theorem chat_history_only_last_user_entry
    (lower : str -> str) (msg : str)
    (before after : list ChatMessage) (m : ChatMessage) :
  role m = lit "user" ->
  Forall (fun x => role x <> lit "user") after ->
  chat_endpoint lower
    {| message := msg; history := Some (before ++ m :: after) |} =
  chat_endpoint lower {| message := msg; history := Some [m] |}.
Proof.
  intros Hr Ha. unfold chat_endpoint. cbn [message history].
  rewrite !echo_hint_some.
  assert (E1 : last_user (before ++ m :: after) = Some (content m)).
  { apply last_user_some. exists before, m, after. now repeat split. }
  assert (E2 : last_user [m] = Some (content m)).
  { apply last_user_some. exists [], m, []. now repeat split. }
  now rewrite E1, E2.
Qed.

Lemma chat_history_only_last_user_entry_witness :
  chat_endpoint ascii_lower
    {| message := lit "price?";
       history := Some ([user_says (lit "first")]
                        ++ user_says (lit "second")
                        :: [{| role := lit "assistant";
                               content := lit "noted" |}]) |} =
  chat_endpoint ascii_lower
    {| message := lit "price?";
       history := Some [user_says (lit "second")] |}.
Proof.
  apply (chat_history_only_last_user_entry ascii_lower (lit "price?")
           [user_says (lit "first")]
           (after := [{| role := lit "assistant"; content := lit "noted" |}])
           (user_says (lit "second"))).
  - reflexivity.
  - constructor; [discriminate | constructor].
Defined.

(** X5. A history without any entry of role "user" (the empty history too, and
    whatever roles it holds, "User" or "assistant") is the same as no
    history at all. *)
Theorem chat_history_without_user_entries
    (lower : str -> str) (msg : str) (hist : list ChatMessage) :
  Forall (fun x => role x <> lit "user") hist ->
  chat_endpoint lower {| message := msg; history := Some hist |} =
  chat_endpoint lower {| message := msg; history := None |}.
Proof.
  intros H. unfold chat_endpoint. cbn [message history].
  rewrite echo_hint_some.
  apply last_user_none in H. now rewrite H.
Qed.

Lemma chat_history_without_user_entries_witness :
  chat_endpoint ascii_lower
    {| message := lit "price?";
       history := Some [{| role := lit "User"; content := lit "loud" |};
                        {| role := lit "assistant"; content := lit "ok" |}] |}
  = chat_endpoint ascii_lower {| message := lit "price?"; history := None |}.
Proof.
  apply (chat_history_without_user_entries ascii_lower (lit "price?")).
  repeat (constructor; [discriminate|]). constructor.
Defined.

(** ** More on the plan endpoint *)

Section PlanMore.

Variables DocId Exc Store : Type.
Variable str_of_id : DocId -> str.

(** X6. The plan endpoint does not see whitespace around the idea, nor the
    difference between omitted features and an empty features list: such
    requests are served by the same program, so with the same response, the
    same persisted record and the same effect on the store. *)
Theorem plan_ignores_surrounding_whitespace
    (a s b : str) (f : option (list str)) :
  blank a -> blank b ->
  plan_endpoint Exc str_of_id {| idea := a ++ s ++ b; features := f |} =
  plan_endpoint Exc str_of_id {| idea := s; features := f |} /\
  plan_endpoint Exc str_of_id {| idea := a ++ s ++ b; features := None |} =
  plan_endpoint Exc str_of_id {| idea := s; features := Some [] |}.
Proof.
  intros Ha Hb. unfold plan_endpoint. cbn [idea features].
  rewrite !or_else_empty. rewrite (strip_padding s Ha Hb).
  split; reflexivity.
Qed.

(** X7. Every request is either rejected with the 400 error without any call to
    the store, or answered with a plan after exactly one [create_document]
    call on the "generation" collection; the record handed over carries the
    status, the features and the plan of the response, and the store is left
    as that one call left it. *)
Theorem plan_persists_what_it_returns
    (req : PlanRequest) (db : gateway DocId Exc Store) (st : Store) :
  let r := run db (plan_endpoint Exc str_of_id req) st in
  (blank (idea req) /\
   produced r = HTTPException 400 (lit "Idea is required") /\
   calls r = [] /\ store_after r = st)
  \/
  (~ blank (idea req) /\
   exists resp gen,
     produced r = Returned resp /\
     calls r = [(lit "generation", gen)] /\
     gen_status gen = resp_status resp /\
     gen_features gen = plan_features (resp_plan resp) /\
     gen_plan gen = resp_plan resp /\
     store_after r = snd (db (lit "generation") gen st)).
Proof.
  cbv zeta. destruct (blank_dec (idea req)) as [B|B].
  - left. rewrite (run_plan_endpoint_blank str_of_id req db st B).
    repeat split. exact B.
  - right. split; [exact B|].
    rewrite (run_plan_endpoint_ok str_of_id req db st B).
    eexists; eexists. repeat split.
Qed.

End PlanMore.

Lemma plan_ignores_surrounding_whitespace_witness :
  plan_endpoint str decimal_str
    {| idea := [9] ++ lit "todo app" ++ lit "  "; features := None |} =
  plan_endpoint str decimal_str
    {| idea := lit "todo app"; features := Some [] |}.
Proof.
  apply (proj2 (@plan_ignores_surrounding_whitespace N str decimal_str
                  [9] (lit "todo app") (lit "  ") None
                  ltac:(repeat constructor) ltac:(repeat constructor))).
Defined.

(** ** The diagnostic endpoint *)

(** Reading a field of an updated report. *)
Ltac diag_simpl :=
  cbn [diag_backend diag_database diag_database_url diag_database_name
       diag_connection_status diag_collections
       set_database set_database_url set_database_name
       set_connection_status set_collections initial_diagnostics
       db_name list_collection_names].

(** The cases of a report: is [db] set, what its name lookup gives, how
    the listing ends. *)
Ltac diag_cases db :=
  unfold test_database, probe, list_collections;
  destruct db as [[[|?v|?e] [?e|?names]]|]; diag_simpl.

Section DiagnosticFacts.

Variable Exc : Type.
Variable str_of_exc : Exc -> str.

Lemma firstn_prefix (A : Type) (n : nat) (l : list A) :
  exists rest, l = firstn n l ++ rest.
Proof. exists (skipn n l). symmetry. apply firstn_skipn. Qed.

(** X8. The collection names [test_database] reports are the first names the
    store listed, ten at most and in order: when [db] is set, its name could
    be looked up and the listing succeeded, the field is exactly the first
    ten names of the listing (all of them when there are ten or fewer); in
    every other case (no [db], a name lookup that raises, a listing that
    raises) it is the empty list. *)
Theorem diagnostic_collections_are_first_ten
    (db : option (Db Exc)) (getenv : str -> option str) :
  let r := test_database str_of_exc db getenv in
  (forall d names,
      db = Some d ->
      (forall e, db_name d <> NameRaises e) ->
      list_collection_names d = inr names ->
      diag_collections r = firstn 10 names /\
      (exists rest, names = diag_collections r ++ rest) /\
      ((List.length names <= 10)%nat -> diag_collections r = names) /\
      ((10 <= List.length names)%nat ->
       List.length (diag_collections r) = 10%nat)) /\
  (db = None -> diag_collections r = []) /\
  (forall d e, db = Some d -> db_name d = NameRaises e ->
               diag_collections r = []) /\
  (forall d e, db = Some d -> list_collection_names d = inl e ->
               diag_collections r = []) /\
  (List.length (diag_collections r) <= 10)%nat.
Proof.
  cbv zeta. split; [|split; [|split; [|split]]].
  - intros d names -> Hn Hl. destruct d as [nm l]. cbn in Hn, Hl. subst l.
    unfold test_database, probe, list_collections. diag_simpl.
    assert (F : firstn 10 names = firstn 10 names /\
                (exists rest, names = firstn 10 names ++ rest) /\
                ((List.length names <= 10)%nat -> firstn 10 names = names) /\
                ((10 <= List.length names)%nat ->
                 List.length (firstn 10 names) = 10%nat)).
    { split; [reflexivity|]. split; [apply firstn_prefix|].
      split; intros H; [now apply firstn_all2 | now apply firstn_length_le]. }
    destruct nm as [|v|e]; [exact F | exact F | now destruct (Hn e)].
  - intros ->. reflexivity.
  - intros [nm l] e -> Hn. cbn in Hn. subst nm. reflexivity.
  - intros [nm l] e -> Hl. cbn in Hl. subst l.
    unfold test_database, probe, list_collections. diag_simpl.
    destruct nm; reflexivity.
  - diag_cases db; try (cbn; lia); apply firstn_le_length.
Qed.

(** X9. The [database_url] and [database_name] fields of the diagnostic report
    only say whether the environment variables DATABASE_URL and
    DATABASE_NAME are set to a non-empty value: what the handler wrote
    there while probing [db] (the name of the database among it) is
    overwritten, so the two fields are the same for every [db]. *)
Theorem diagnostic_env_fields_ignore_db
    (db db' : option (Db Exc)) (getenv : str -> option str) :
  let r := test_database str_of_exc db getenv in
  let r' := test_database str_of_exc db' getenv in
  diag_database_url r = diag_database_url r' /\
  diag_database_name r = diag_database_name r' /\
  ((exists v, getenv (lit "DATABASE_URL") = Some v /\ v <> [] /\
              diag_database_url r = Some (check_mark ++ lit " Set")) \/
   ((getenv (lit "DATABASE_URL") = None \/
     getenv (lit "DATABASE_URL") = Some []) /\
    diag_database_url r = Some (cross_mark ++ lit " Not Set"))) /\
  ((exists v, getenv (lit "DATABASE_NAME") = Some v /\ v <> [] /\
              diag_database_name r = Some (check_mark ++ lit " Set")) \/
   ((getenv (lit "DATABASE_NAME") = None \/
     getenv (lit "DATABASE_NAME") = Some []) /\
    diag_database_name r = Some (cross_mark ++ lit " Not Set"))).
Proof.
  cbv zeta. unfold test_database. diag_simpl.
  split; [reflexivity|]. split; [reflexivity|].
  unfold set_or_not, env_truthy.
  split.
  - destruct (getenv (lit "DATABASE_URL")) as [[|c v]|] eqn:E.
    + right. split; [now right | reflexivity].
    + left. exists (c :: v). repeat split. discriminate.
    + right. split; [now left | reflexivity].
  - destruct (getenv (lit "DATABASE_NAME")) as [[|c v]|] eqn:E.
    + right. split; [now right | reflexivity].
    + left. exists (c :: v). repeat split. discriminate.
    + right. split; [now left | reflexivity].
Qed.

(** X10. The [database] text of the diagnostic has at most 75 characters,
    however long the text of a caught exception is: the handler quotes its
    first 50 characters only. *)
Theorem diagnostic_database_text_bounded
    (db : option (Db Exc)) (getenv : str -> option str) :
  (List.length (diag_database (test_database str_of_exc db getenv))
   <= 75)%nat.
Proof.
  diag_cases db;
    try (cbn; lia);
    match goal with
    | |- context [firstn 50 ?x] =>
        pose proof (firstn_le_length 50 x);
        remember (firstn 50 x) as t; rewrite !length_app; cbn; lia
    end.
Qed.

(** X11. What the report says about the connection.  [connection_status] is
    "Connected" exactly when [db] is set and looking up its name did not
    raise; [database] is "Connected & Working" exactly when, moreover, the
    collections could be listed.  The text the report starts with,
    "Not Available", and the interim "Available" are never what the caller
    gets. *)
Theorem diagnostic_connection_report
    (db : option (Db Exc)) (getenv : str -> option str) :
  let r := test_database str_of_exc db getenv in
  (diag_connection_status r = lit "Connected" <->
   exists d, db = Some d /\ forall e, db_name d <> NameRaises e) /\
  (diag_database r = check_mark ++ lit " Connected & Working" <->
   exists d names,
     db = Some d /\ (forall e, db_name d <> NameRaises e) /\
     list_collection_names d = inr names) /\
  (diag_database r = check_mark ++ lit " Connected & Working" ->
   diag_connection_status r = lit "Connected") /\
  diag_database r <> cross_mark ++ lit " Not Available" /\
  diag_database r <> check_mark ++ lit " Available" /\
  diag_backend r = check_mark ++ lit " Running".
Proof.
  cbv zeta. diag_cases db;
    repeat split;
    try discriminate;
    try (intros (d & H & _); discriminate H);
    try (intros (d & ns & H & _); discriminate H);
    try (intros (d & H & N); injection H as <-;
         exfalso; eapply N; reflexivity);
    try (intros (d & ns & H & N & _); injection H as <-;
         exfalso; eapply N; reflexivity);
    try (intros (d & ns & H & _ & L); injection H as <-; discriminate L);
    try (intros _; eexists; split; [reflexivity | discriminate]);
    try (intros _; eexists; eexists;
         split; [reflexivity | split; [discriminate | reflexivity]]).
Qed.

End DiagnosticFacts.

Lemma diagnostic_collections_are_first_ten_witness :
  let names := map (fun c => [c]) (lit "abcdefghijkl") in
  let d := {| db_name := Name (Exc := str) (lit "appdb");
              list_collection_names := inr names |} in
  diag_collections (test_database (fun e => e) (Some d) (fun _ => None)) =
  map (fun c => [c]) (lit "abcdefghij").
Proof.
  cbv zeta.
  exact (proj1 (proj1 (@diagnostic_collections_are_first_ten
                         str (fun e => e)
                         (Some {| db_name := Name (lit "appdb");
                                  list_collection_names :=
                                    inr (map (fun c => [c])
                                             (lit "abcdefghijkl")) |})
                         (fun _ => None))
                  _ _ eq_refl ltac:(discriminate) eq_refl)).
Defined.
